(** * The orientation arm model of webxr-physics

    A shallow embedding of [OrientationArmModel]
    (src/arms-and-feet/src/physics/physicsHandler.ts, lines 186-385) and of
    the three.js methods it calls, followed by the properties of the
    specification that concern it.

    Numbers.  A JavaScript number is modelled by a real number: rounding,
    overflow and signed zeros are outside the model.  The one quotient whose
    divisor vanishes for well-formed inputs, [angleDelta / timeDelta], is
    kept as a [JS.number], which has the non-finite outcomes of an IEEE
    division; it is only ever compared with a constant.  The other divisor
    that can vanish is the product of lengths in [Vector3.angleTo]: it is 0
    for a zero-length operand, where JavaScript computes [0 / 0 = NaN] and a
    real number cannot follow it.  The theorems about an angle therefore
    assume unit quaternions, for which that divisor is 1.

    Objects.  The three.js classes are mutable: a method writes to [this]
    and returns it.  Here a method takes the value of [this] first and
    returns its new value, and a JavaScript variable that refers to a
    mutated object is rebound to that new value. *)

From Stdlib Require Import List Reals Lra Psatz.

Local Open Scope list_scope.
Local Open Scope R_scope.

(** ** JavaScript numbers and [Math] *)

Module JS.

(** The result of an IEEE division of two finite numbers. *)
Inductive number : Type :=
| Finite (r : R)
| PosInfinity
| NegInfinity
| NaN.

(** [ToNumber]: [null] becomes [+0] in an arithmetic expression. *)
Definition toNumber (v : option R) : R :=
  match v with
  | Some r => r
  | None => 0
  end.

(** [x / y].  A zero divisor is [+0] here (a difference of two equal clock
    readings), so the sign of the infinity is the sign of [x]. *)
Definition div (x y : R) : number :=
  if Req_dec_T y 0 then
    if Rlt_dec 0 x then PosInfinity
    else if Rlt_dec x 0 then NegInfinity
    else NaN
  else Finite (x / y).

(** [a > c] for a finite [c]: every comparison with [NaN] is false. *)
Definition gt (a : number) (c : R) : bool :=
  match a with
  | Finite r => if Rlt_dec c r then true else false
  | PosInfinity => true
  | NegInfinity => false
  | NaN => false
  end.

Definition EPSILON : R := / 2 ^ 52.

Definition Math_min (a b : R) : R := Rmin a b.
Definition Math_max (a b : R) : R := Rmax a b.
Definition Math_pow (b : R) (e : nat) : R := b ^ e.

Definition Math_atan2 (y x : R) : R :=
  if Rlt_dec 0 x then atan (y / x)
  else if Rlt_dec x 0 then
    if Rle_dec 0 y then atan (y / x) + PI else atan (y / x) - PI
  else if Rlt_dec 0 y then PI / 2
  else if Rlt_dec y 0 then - (PI / 2)
  else 0.

End JS.

(** ** three.js: [Math], [Vector3], [Quaternion], [Matrix4], [Euler]

    Transcribed from the library the source imports, three.js r100 (the
    [Math] export and [Quaternion.inverse] date the dependency before
    r113). *)

Module Math2.

Definition RAD2DEG : R := 180 / PI.

Definition radToDeg (radians : R) : R := radians * RAD2DEG.

Definition clamp (value min max : R) : R :=
  JS.Math_max min (JS.Math_min max value).

End Math2.

Module Quaternion.

Record t : Type := mk { x : R; y : R; z : R; w : R }.

(** [new Quaternion()] is the identity rotation. *)
Definition new : t := mk 0 0 0 1.

Definition clone (this : t) : t := mk (x this) (y this) (z this) (w this).

Definition copy (this quaternion : t) : t :=
  mk (x quaternion) (y quaternion) (z quaternion) (w quaternion).

Definition conjugate (this : t) : t :=
  mk (x this * -1) (y this * -1) (z this * -1) (w this).

(** [inverse] conjugates [this] in place ("quaternion is assumed to have
    unit length") and returns it. *)
Definition inverse (this : t) : t := conjugate this.

Definition dot (this v : t) : R :=
  x this * x v + y this * y v + z this * z v + w this * w v.

Definition lengthSq (this : t) : R :=
  x this * x this + y this * y this + z this * z this + w this * w this.

Definition length (this : t) : R := sqrt (lengthSq this).

Definition normalize (this : t) : t :=
  let l := length this in
  if Req_dec_T l 0 then mk 0 0 0 1
  else
    let l := 1 / l in
    mk (x this * l) (y this * l) (z this * l) (w this * l).

Definition multiplyQuaternions (a b : t) : t :=
  let qax := x a in let qay := y a in let qaz := z a in let qaw := w a in
  let qbx := x b in let qby := y b in let qbz := z b in let qbw := w b in
  mk (qax * qbw + qaw * qbx + qay * qbz - qaz * qby)
     (qay * qbw + qaw * qby + qaz * qbx - qax * qbz)
     (qaz * qbw + qaw * qbz + qax * qby - qay * qbx)
     (qaw * qbw - qax * qbx - qay * qby - qaz * qbz).

(** [this.multiply(q)]: [this] becomes [this * q]. *)
Definition multiply (this q : t) : t := multiplyQuaternions this q.

Definition slerp (this qb : t) (t0 : R) : t :=
  if Req_dec_T t0 0 then this
  else if Req_dec_T t0 1 then copy this qb
  else
    let x0 := x this in let y0 := y this in
    let z0 := z this in let w0 := w this in
    let cosHalfTheta := w0 * w qb + x0 * x qb + y0 * y qb + z0 * z qb in
    let '(this, cosHalfTheta) :=
      if Rlt_dec cosHalfTheta 0
      then (mk (- x qb) (- y qb) (- z qb) (- w qb), - cosHalfTheta)
      else (copy this qb, cosHalfTheta) in
    if Rle_dec 1 cosHalfTheta then mk x0 y0 z0 w0
    else
      let sqrSinHalfTheta := 1 - cosHalfTheta * cosHalfTheta in
      if Rle_dec sqrSinHalfTheta JS.EPSILON then
        let s := 1 - t0 in
        normalize (mk (s * x0 + t0 * x this) (s * y0 + t0 * y this)
                      (s * z0 + t0 * z this) (s * w0 + t0 * w this))
      else
        let sinHalfTheta := sqrt sqrSinHalfTheta in
        let halfTheta := JS.Math_atan2 sinHalfTheta cosHalfTheta in
        let ratioA := sin ((1 - t0) * halfTheta) / sinHalfTheta in
        let ratioB := sin (t0 * halfTheta) / sinHalfTheta in
        mk (x0 * ratioA + x this * ratioB) (y0 * ratioA + y this * ratioB)
           (z0 * ratioA + z this * ratioB) (w0 * ratioA + w this * ratioB).

End Quaternion.

Module Vector3.

Record t : Type := mk { x : R; y : R; z : R }.

(** [new Vector3()] is the origin. *)
Definition new : t := mk 0 0 0.

Definition clone (this : t) : t := mk (x this) (y this) (z this).

Definition copy (this v : t) : t := mk (x v) (y v) (z v).

Definition add (this v : t) : t :=
  mk (x this + x v) (y this + y v) (z this + z v).

Definition sub (this v : t) : t :=
  mk (x this - x v) (y this - y v) (z this - z v).

Definition multiplyScalar (this : t) (scalar : R) : t :=
  mk (x this * scalar) (y this * scalar) (z this * scalar).

Definition dot (this v : t) : R :=
  x this * x v + y this * y v + z this * z v.

Definition lengthSq (this : t) : R :=
  x this * x this + y this * y this + z this * z this.

Definition length (this : t) : R := sqrt (lengthSq this).

Definition applyQuaternion (this : t) (q : Quaternion.t) : t :=
  let x0 := x this in let y0 := y this in let z0 := z this in
  let qx := Quaternion.x q in let qy := Quaternion.y q in
  let qz := Quaternion.z q in let qw := Quaternion.w q in
  (* calculate quat * vector *)
  let ix := qw * x0 + qy * z0 - qz * y0 in
  let iy := qw * y0 + qz * x0 - qx * z0 in
  let iz := qw * z0 + qx * y0 - qy * x0 in
  let iw := - qx * x0 - qy * y0 - qz * z0 in
  (* calculate result * inverse quat *)
  mk (ix * qw + iw * - qx + iy * - qz - iz * - qy)
     (iy * qw + iw * - qy + iz * - qx - ix * - qz)
     (iz * qw + iw * - qz + ix * - qy - iy * - qx).

(** For operands of nonzero length.  When one operand has length 0 the
    divisor is 0 and JavaScript returns NaN, which [R] does not have; see
    [Divisions.angleTo_divisor]. *)
Definition angleTo (this v : t) : R :=
  let theta := dot this v / sqrt (lengthSq this * lengthSq v) in
  (* clamp, to handle numerical problems *)
  acos (Math2.clamp theta (-1) 1).

End Vector3.

Module Matrix4.

(** The rotation block of a [Matrix4]; [mij] is row [i], column [j]. *)
Record t : Type := mk {
  m11 : R; m12 : R; m13 : R;
  m21 : R; m22 : R; m23 : R;
  m31 : R; m32 : R; m33 : R
}.

(** [compose(zero, q, one)]: the factors of the unit scale are left out. *)
Definition makeRotationFromQuaternion (q : Quaternion.t) : t :=
  let x := Quaternion.x q in let y := Quaternion.y q in
  let z := Quaternion.z q in let w := Quaternion.w q in
  let x2 := x + x in let y2 := y + y in let z2 := z + z in
  let xx := x * x2 in let xy := x * y2 in let xz := x * z2 in
  let yy := y * y2 in let yz := y * z2 in let zz := z * z2 in
  let wx := w * x2 in let wy := w * y2 in let wz := w * z2 in
  mk (1 - (yy + zz)) (xy - wz) (xz + wy)
     (xy + wz) (1 - (xx + zz)) (yz - wx)
     (xz - wy) (yz + wx) (1 - (xx + yy)).

End Matrix4.

Module Euler.

(** The arm model only ever uses the rotation order ['YXZ']. *)
Inductive order : Type := YXZ.

Record t : Type := mk { x : R; y : R; z : R; ord : order }.

Definition setFromRotationMatrix (m : Matrix4.t) (o : order) : t :=
  match o with
  | YXZ =>
    let x0 := asin (- Math2.clamp (Matrix4.m23 m) (-1) 1) in
    if Rlt_dec (Rabs (Matrix4.m23 m)) 0.99999 then
      mk x0 (JS.Math_atan2 (Matrix4.m13 m) (Matrix4.m33 m))
         (JS.Math_atan2 (Matrix4.m21 m) (Matrix4.m22 m)) o
    else
      mk x0 (JS.Math_atan2 (- Matrix4.m31 m) (Matrix4.m11 m)) 0 o
  end.

Definition setFromQuaternion (q : Quaternion.t) (o : order) : t :=
  setFromRotationMatrix (Matrix4.makeRotationFromQuaternion q) o.

(** [headEuler.x = 0], [headEuler.z = 0]. *)
Definition set_x (this : t) (v : R) : t := mk v (y this) (z this) (ord this).
Definition set_z (this : t) (v : R) : t := mk (x this) (y this) v (ord this).

End Euler.

Module QuaternionOfEuler.

(** [Quaternion.setFromEuler], the ['YXZ'] case. *)
Definition setFromEuler (euler : Euler.t) : Quaternion.t :=
  let x := Euler.x euler in let y := Euler.y euler in
  let z := Euler.z euler in
  let c1 := cos (x / 2) in let c2 := cos (y / 2) in let c3 := cos (z / 2) in
  let s1 := sin (x / 2) in let s2 := sin (y / 2) in let s3 := sin (z / 2) in
  match Euler.ord euler with
  | Euler.YXZ =>
    Quaternion.mk (s1 * c2 * c3 + c1 * s2 * s3)
                  (c1 * s2 * c3 - s1 * c2 * s3)
                  (c1 * c2 * s3 - s1 * s2 * c3)
                  (c1 * c2 * c3 + s1 * s2 * s3)
  end.

End QuaternionOfEuler.

(** ** The arm model *)

Module OrientationArmModel.

Definition HEAD_ELBOW_OFFSET : Vector3.t := Vector3.mk 0.155 (-0.465) (-0.15).
Definition ELBOW_WRIST_OFFSET : Vector3.t := Vector3.mk 0 0 (-0.25).
Definition WRIST_CONTROLLER_OFFSET : Vector3.t := Vector3.mk 0 0 0.05.
Definition ARM_EXTENSION_OFFSET : Vector3.t := Vector3.mk (-0.08) 0.14 0.08.

Definition ELBOW_BEND_RATIO : R := 0.4. (* 40% elbow, 60% wrist. *)
Definition EXTENSION_RATIO_WEIGHT : R := 0.4.

Definition MIN_ANGULAR_SPEED : R := 0.61. (* 35 degrees per second. *)

Record Pose : Type := mkPose {
  orientation : Quaternion.t;
  position : Vector3.t
}.

(** The fields of an instance; [time] and [lastTime] start as [null]. *)
Record State : Type := mkState {
  isLeftHanded : bool;
  controllerQ : Quaternion.t;
  lastControllerQ : Quaternion.t;
  headQ : Quaternion.t;
  headPos : Vector3.t;
  elbowPos : Vector3.t;
  wristPos : Vector3.t;
  time : option R;
  lastTime : option R;
  rootQ : Quaternion.t;
  pose : Pose
}.

(** Field assignment, one function per field that a method writes. *)
Definition set_controllerQ (this : State) (v : Quaternion.t) : State :=
  mkState (isLeftHanded this) v (lastControllerQ this) (headQ this)
          (headPos this) (elbowPos this) (wristPos this) (time this)
          (lastTime this) (rootQ this) (pose this).
Definition set_lastControllerQ (this : State) (v : Quaternion.t) : State :=
  mkState (isLeftHanded this) (controllerQ this) v (headQ this)
          (headPos this) (elbowPos this) (wristPos this) (time this)
          (lastTime this) (rootQ this) (pose this).
Definition set_headQ (this : State) (v : Quaternion.t) : State :=
  mkState (isLeftHanded this) (controllerQ this) (lastControllerQ this) v
          (headPos this) (elbowPos this) (wristPos this) (time this)
          (lastTime this) (rootQ this) (pose this).
Definition set_headPos (this : State) (v : Vector3.t) : State :=
  mkState (isLeftHanded this) (controllerQ this) (lastControllerQ this)
          (headQ this) v (elbowPos this) (wristPos this) (time this)
          (lastTime this) (rootQ this) (pose this).
Definition set_elbowPos (this : State) (v : Vector3.t) : State :=
  mkState (isLeftHanded this) (controllerQ this) (lastControllerQ this)
          (headQ this) (headPos this) v (wristPos this) (time this)
          (lastTime this) (rootQ this) (pose this).
Definition set_wristPos (this : State) (v : Vector3.t) : State :=
  mkState (isLeftHanded this) (controllerQ this) (lastControllerQ this)
          (headQ this) (headPos this) (elbowPos this) v (time this)
          (lastTime this) (rootQ this) (pose this).
Definition set_time (this : State) (v : option R) : State :=
  mkState (isLeftHanded this) (controllerQ this) (lastControllerQ this)
          (headQ this) (headPos this) (elbowPos this) (wristPos this) v
          (lastTime this) (rootQ this) (pose this).
Definition set_lastTime (this : State) (v : option R) : State :=
  mkState (isLeftHanded this) (controllerQ this) (lastControllerQ this)
          (headQ this) (headPos this) (elbowPos this) (wristPos this)
          (time this) v (rootQ this) (pose this).
Definition set_rootQ (this : State) (v : Quaternion.t) : State :=
  mkState (isLeftHanded this) (controllerQ this) (lastControllerQ this)
          (headQ this) (headPos this) (elbowPos this) (wristPos this)
          (time this) (lastTime this) v (pose this).
Definition set_pose (this : State) (v : Pose) : State :=
  mkState (isLeftHanded this) (controllerQ this) (lastControllerQ this)
          (headQ this) (headPos this) (elbowPos this) (wristPos this)
          (time this) (lastTime this) (rootQ this) v.

Definition constructor : State :=
  mkState false
          Quaternion.new Quaternion.new (* controllerQ, lastControllerQ *)
          Quaternion.new                (* headQ *)
          Vector3.new                   (* headPos *)
          Vector3.new Vector3.new       (* elbowPos, wristPos *)
          None None                     (* time, lastTime *)
          Quaternion.new                (* rootQ *)
          (mkPose Quaternion.new Vector3.new).

(** Methods to set controller and head pose (in world coordinates). *)
Definition setControllerOrientation (this : State) (quaternion : Quaternion.t)
  : State :=
  let this :=
    set_lastControllerQ this
      (Quaternion.copy (lastControllerQ this) (controllerQ this)) in
  set_controllerQ this (Quaternion.copy (controllerQ this) quaternion).

Definition setHeadOrientation (this : State) (quaternion : Quaternion.t)
  : State :=
  set_headQ this (Quaternion.copy (headQ this) quaternion).

Definition setHeadPosition (this : State) (position : Vector3.t) : State :=
  set_headPos this (Vector3.copy (headPos this) position).

Definition getHeadYawOrientation_ (this : State) : Quaternion.t :=
  let headEuler := Euler.setFromQuaternion (headQ this) Euler.YXZ in
  let headEuler := Euler.set_x headEuler 0 in
  let headEuler := Euler.set_z headEuler 0 in
  QuaternionOfEuler.setFromEuler headEuler.

Definition clamp_ (value min max : R) : R :=
  JS.Math_min (JS.Math_max value min) max.

Definition quatAngle_ (q1 q2 : Quaternion.t) : R :=
  let vec1 := Vector3.mk 0 0 (-1) in
  let vec2 := Vector3.mk 0 0 (-1) in
  let vec1 := Vector3.applyQuaternion vec1 q1 in
  let vec2 := Vector3.applyQuaternion vec2 q2 in
  Vector3.angleTo vec1 vec2.

(** The local variables of [update], as they stand when it returns. *)
Record Locals : Type := mkLocals {
  headYawQ : Quaternion.t;
  timeDelta : R;
  angleDelta : R;
  controllerAngularSpeed : JS.number;
  controllerXDeg : R;
  extensionRatio : R;
  controllerCameraQ : Quaternion.t;
  totalAngle : R;
  totalAngleDeg : R;
  lerpSuppression : R;
  lerpValue : R;
  wristQ : Quaternion.t;
  invWristQ : Quaternion.t;
  elbowQ : Quaternion.t
}.

(** The body of [update]; [now] is the reading of [performance.now()]. *)
Definition update_body (this : State) (now : R) : State * Locals :=
  let this := set_time this (Some now) in

  let headYawQ := getHeadYawOrientation_ this in
  let timeDelta := (JS.toNumber (time this) - JS.toNumber (lastTime this))
                   / 1000 in
  let angleDelta := quatAngle_ (lastControllerQ this) (controllerQ this) in
  let controllerAngularSpeed := JS.div angleDelta timeDelta in
  (* Both branches write [this.rootQ] and nothing else. *)
  let this :=
    set_rootQ this
      (if JS.gt controllerAngularSpeed MIN_ANGULAR_SPEED then
         (* Attenuate the Root rotation slightly. *)
         Quaternion.slerp (rootQ this) headYawQ (angleDelta / 10)
       else
         Quaternion.copy (rootQ this) headYawQ) in

  let controllerEuler := Euler.setFromQuaternion (controllerQ this) Euler.YXZ in
  let controllerXDeg := Math2.radToDeg (Euler.x controllerEuler) in
  let extensionRatio := clamp_ ((controllerXDeg - 11) / (50 - 11)) 0 1 in

  (* Controller orientation in camera space. *)
  let controllerCameraQ := Quaternion.inverse (Quaternion.clone (rootQ this)) in
  let controllerCameraQ := Quaternion.multiply controllerCameraQ
                                               (controllerQ this) in

  (* Calculate elbow position; [elbowPos] is [this.elbowPos] itself. *)
  let this := set_elbowPos this
                (Vector3.add (Vector3.copy (elbowPos this) (headPos this))
                             HEAD_ELBOW_OFFSET) in
  let elbowOffset := Vector3.copy Vector3.new ARM_EXTENSION_OFFSET in
  let elbowOffset := Vector3.multiplyScalar elbowOffset extensionRatio in
  let this := set_elbowPos this (Vector3.add (elbowPos this) elbowOffset) in

  (* Calculate joint angles. *)
  let totalAngle := quatAngle_ controllerCameraQ Quaternion.new in
  let totalAngleDeg := Math2.radToDeg totalAngle in
  let lerpSuppression := 1 - JS.Math_pow (totalAngleDeg / 180) 4 in

  let elbowRatio := ELBOW_BEND_RATIO in
  let wristRatio := 1 - ELBOW_BEND_RATIO in
  let lerpValue := lerpSuppression *
      (elbowRatio + wristRatio * extensionRatio * EXTENSION_RATIO_WEIGHT) in

  let wristQ := Quaternion.slerp Quaternion.new controllerCameraQ lerpValue in
  (* [wristQ.inverse()] conjugates the object [wristQ] and returns it:
     from here on [wristQ] and [invWristQ] are one object. *)
  let wristQ := Quaternion.inverse wristQ in
  let invWristQ := wristQ in
  let elbowQ := Quaternion.multiply (Quaternion.clone controllerCameraQ)
                                    invWristQ in

  (* Calculate our final controller position based on all our joint
     rotations and lengths; [wristPos] is [this.wristPos] itself. *)
  let this := set_wristPos this
                (Vector3.copy (wristPos this) WRIST_CONTROLLER_OFFSET) in
  let this := set_wristPos this
                (Vector3.applyQuaternion (wristPos this) wristQ) in
  let this := set_wristPos this
                (Vector3.add (wristPos this) ELBOW_WRIST_OFFSET) in
  let this := set_wristPos this
                (Vector3.applyQuaternion (wristPos this) elbowQ) in
  let this := set_wristPos this
                (Vector3.add (wristPos this) (elbowPos this)) in

  let offset := Vector3.copy Vector3.new ARM_EXTENSION_OFFSET in
  let offset := Vector3.multiplyScalar offset extensionRatio in

  let position := Vector3.copy Vector3.new (wristPos this) in
  let position := Vector3.add position offset in
  let position := Vector3.applyQuaternion position (rootQ this) in

  let orientation := Quaternion.copy Quaternion.new (controllerQ this) in

  (* Set the resulting pose orientation and position. *)
  let this :=
    set_pose this
      (mkPose (Quaternion.copy (OrientationArmModel.orientation (pose this))
                               orientation)
              (OrientationArmModel.position (pose this))) in
  let this :=
    set_pose this
      (mkPose (OrientationArmModel.orientation (pose this))
              (Vector3.copy (OrientationArmModel.position (pose this))
                            position)) in

  let this := set_lastTime this (time this) in
  (this,
   mkLocals headYawQ timeDelta angleDelta controllerAngularSpeed
            controllerXDeg extensionRatio controllerCameraQ totalAngle
            totalAngleDeg lerpSuppression lerpValue wristQ invWristQ elbowQ).

Definition update (this : State) (now : R) : State :=
  fst (update_body this now).

Definition locals (this : State) (now : R) : Locals :=
  snd (update_body this now).

Definition getPose (this : State) : Pose := pose this.

(** The calls a client makes on an instance, and their effect in order. *)
Inductive call : Type :=
| SetControllerOrientation (quaternion : Quaternion.t)
| SetHeadOrientation (quaternion : Quaternion.t)
| SetHeadPosition (position : Vector3.t)
| Update (now : R).

Definition exec (this : State) (c : call) : State :=
  match c with
  | SetControllerOrientation q => setControllerOrientation this q
  | SetHeadOrientation q => setHeadOrientation this q
  | SetHeadPosition p => setHeadPosition this p
  | Update now => update this now
  end.

Definition run (this : State) (calls : list call) : State :=
  List.fold_left exec calls this.

(** The argument of the last [setControllerOrientation] among [calls],
    and [q0] when there is none. *)
Fixpoint lastControllerInput (calls : list call) (q0 : Quaternion.t)
  : Quaternion.t :=
  match calls with
  | nil => q0
  | SetControllerOrientation q :: rest => lastControllerInput rest q
  | _ :: rest => lastControllerInput rest q0
  end.

End OrientationArmModel.

(** ** The joint rotations and the wrist position as the specification
    words them (steps 13 and 14), to be compared with [update] *)

Module Spec.

Import OrientationArmModel.

Definition wristQ (controllerCameraQ : Quaternion.t) (lerpValue : R)
  : Quaternion.t :=
  Quaternion.slerp Quaternion.new controllerCameraQ lerpValue.

Definition elbowQ (controllerCameraQ : Quaternion.t) (lerpValue : R)
  : Quaternion.t :=
  Quaternion.multiplyQuaternions
    controllerCameraQ
    (Quaternion.conjugate (wristQ controllerCameraQ lerpValue)).

(** [elbowPos + elbowQ * (ELBOW_WRIST_OFFSET
                          + wristQ * WRIST_CONTROLLER_OFFSET)] *)
Definition wristPos (elbowPos : Vector3.t) (controllerCameraQ : Quaternion.t)
    (lerpValue : R) : Vector3.t :=
  Vector3.add
    (Vector3.applyQuaternion
       (Vector3.add
          (Vector3.applyQuaternion WRIST_CONTROLLER_OFFSET
                                   (wristQ controllerCameraQ lerpValue))
          ELBOW_WRIST_OFFSET)
       (elbowQ controllerCameraQ lerpValue))
    elbowPos.

End Spec.

(** ** The divisor of [Vector3.angleTo]

    [quatAngle_] rotates the forward vector by each quaternion and calls
    [Vector3.angleTo], which divides by the product of the two lengths.
    The real-valued [Vector3.angleTo] is the JavaScript result exactly when
    this divisor is not 0. *)

Module Divisions.

Import OrientationArmModel.

Definition angleTo_divisor (this v : Vector3.t) : R :=
  sqrt (Vector3.lengthSq this * Vector3.lengthSq v).

Definition quatAngle__divisor (q1 q2 : Quaternion.t) : R :=
  angleTo_divisor (Vector3.applyQuaternion (Vector3.mk 0 0 (-1)) q1)
                  (Vector3.applyQuaternion (Vector3.mk 0 0 (-1)) q2).

End Divisions.

(** ** Inputs used as examples *)

Module Scenario.

Import OrientationArmModel.

(** A controller yawed about the vertical axis by [2 * atan (3/4)], about
    73.7 degrees: a unit quaternion with rational components. *)
Definition yawedQ : Quaternion.t := Quaternion.mk 0 0.6 0 0.8.

(** A fresh instance that has been given [yawedQ]. *)
Definition yawed : State := setControllerOrientation constructor yawedQ.

(** A controller yawed by 90 degrees. *)
Definition quarterTurnQ : Quaternion.t :=
  Quaternion.mk 0 (/ sqrt 2) 0 (/ sqrt 2).

Definition quarterTurn : State :=
  setControllerOrientation constructor quarterTurnQ.

(** The same, with the head yawed by 90 degrees as well. *)
Definition quarterTurnHead : State :=
  setHeadOrientation quarterTurn quarterTurnQ.


(** An instance given [yawedQ] once and updated once, at clock reading
    1000: the controller moved in the frame before. *)
Definition moved : State := update yawed 1000.

End Scenario.

(** ** Facts about the embedding *)

Module Import ArmModelFacts.

Import OrientationArmModel.

(** *** Copies *)

Lemma Quaternion_copy_eq (this q : Quaternion.t) : Quaternion.copy this q = q.
Proof. destruct q; reflexivity. Qed.

Lemma Quaternion_clone_eq (q : Quaternion.t) : Quaternion.clone q = q.
Proof. destruct q; reflexivity. Qed.

Lemma Vector3_copy_eq (this v : Vector3.t) : Vector3.copy this v = v.
Proof. destruct v; reflexivity. Qed.

(** *** The locals of [update] *)

Lemma headYawQ_eq (s : State) (now : R) :
  headYawQ (locals s now) = getHeadYawOrientation_ s.
Proof. reflexivity. Qed.

Lemma timeDelta_eq (s : State) (now : R) :
  timeDelta (locals s now) = (now - JS.toNumber (lastTime s)) / 1000.
Proof. reflexivity. Qed.

Lemma angleDelta_eq (s : State) (now : R) :
  angleDelta (locals s now) = quatAngle_ (lastControllerQ s) (controllerQ s).
Proof. reflexivity. Qed.

Lemma controllerAngularSpeed_eq (s : State) (now : R) :
  controllerAngularSpeed (locals s now) =
  JS.div (angleDelta (locals s now)) (timeDelta (locals s now)).
Proof. reflexivity. Qed.

Lemma rootQ_update (s : State) (now : R) :
  rootQ (update s now) =
  if JS.gt (controllerAngularSpeed (locals s now)) MIN_ANGULAR_SPEED
  then Quaternion.slerp (rootQ s) (headYawQ (locals s now))
                        (angleDelta (locals s now) / 10)
  else headYawQ (locals s now).
Proof.
  rewrite <- (Quaternion_copy_eq (rootQ s) (headYawQ (locals s now))).
  reflexivity.
Qed.

Lemma controllerCameraQ_eq (s : State) (now : R) :
  controllerCameraQ (locals s now) =
  Quaternion.multiply (Quaternion.inverse (rootQ (update s now))) (controllerQ s).
Proof.
  rewrite <- (Quaternion_clone_eq (rootQ (update s now))). reflexivity.
Qed.

Lemma pose_orientation_update (s : State) (now : R) :
  orientation (pose (update s now)) = controllerQ s.
Proof.
  destruct s as [lh [cx cy cz cw] lq hq hp ep wp tm lt rq ps]; reflexivity.
Qed.

(** *** Sequences of calls *)

Lemma controllerQ_exec (s : State) (c : call) :
  controllerQ (exec s c) =
  match c with
  | SetControllerOrientation q => q
  | _ => controllerQ s
  end.
Proof.
  destruct c; try reflexivity.
  apply Quaternion_copy_eq.
Qed.

Lemma controllerQ_run (calls : list call) :
  forall s, controllerQ (run s calls) = lastControllerInput calls (controllerQ s).
Proof.
  induction calls as [|c rest IH]; intros s; [reflexivity|].
  change (run s (c :: rest)) with (run (exec s c) rest).
  rewrite IH, controllerQ_exec.
  destruct c; reflexivity.
Qed.

Lemma run_app (s : State) (l1 l2 : list call) :
  run s (l1 ++ l2) = run (run s l1) l2.
Proof. apply List.fold_left_app. Qed.

(** *** The two scalar ramps *)

Lemma clamp__ramp (pitch : R) :
  let e := clamp_ ((pitch - 11) / (50 - 11)) 0 1 in
  0 <= e <= 1 /\
  (pitch <= 11 -> e = 0) /\
  (50 <= pitch -> e = 1) /\
  (11 <= pitch <= 50 -> e = (pitch - 11) / (50 - 11)).
Proof.
  intros e; unfold e, clamp_, JS.Math_min, JS.Math_max.
  assert (Hu : (pitch - 11) / (50 - 11) * 39 = pitch - 11) by (field; lra).
  set (u := (pitch - 11) / (50 - 11)) in *.
  unfold Rmin, Rmax.
  destruct (Rle_dec u 0) as [u_low|u_pos];
    match goal with |- context [Rle_dec ?a 1] => destruct (Rle_dec a 1) end;
    repeat split; intros; lra.
Qed.

Lemma pow4_split (u : R) : u ^ 4 = (u * u) * (u * u).
Proof. ring. Qed.

Lemma lerpSuppression_bound (d : R) :
  0 <= d <= 180 ->
  0 <= 1 - JS.Math_pow (d / 180) 4 <= (180 - d) / 45 /\
  1 - JS.Math_pow (d / 180) 4 <= 1.
Proof.
  intros Hd. unfold JS.Math_pow.
  set (u := d / 180).
  assert (Hu : 0 <= u <= 1) by (unfold u; lra).
  replace ((180 - d) / 45) with (4 * (1 - u)) by (unfold u; field).
  rewrite pow4_split.
  assert (0 <= u * u <= 1) by nra.
  repeat split; nra.
Qed.

Lemma lerpSuppression_decreasing (a b : R) :
  0 <= a -> a <= b -> b <= 180 ->
  1 - JS.Math_pow (b / 180) 4 <= 1 - JS.Math_pow (a / 180) 4.
Proof.
  intros Ha Hab Hb. unfold JS.Math_pow.
  assert (Hu : 0 <= a / 180 <= b / 180) by lra.
  set (u := a / 180) in *. set (v := b / 180) in *.
  rewrite !pow4_split.
  assert (0 <= u * u <= v * v) by nra.
  nra.
Qed.

Lemma quatAngle__range (q1 q2 : Quaternion.t) : 0 <= quatAngle_ q1 q2 <= PI.
Proof. unfold quatAngle_, Vector3.angleTo. apply acos_bound. Qed.

Lemma radToDeg_range (a : R) :
  0 <= a <= PI -> 0 <= Math2.radToDeg a <= 180.
Proof.
  intros Ha. unfold Math2.radToDeg, Math2.RAD2DEG.
  pose proof PI_RGT_0 as Hpi.
  replace (a * (180 / PI)) with (a / PI * 180) by (field; lra).
  assert (0 <= a / PI <= 1).
  { split.
    - apply Rmult_le_pos; [lra|]. left. apply Rinv_0_lt_compat, Hpi.
    - apply (Rmult_le_reg_r PI); [exact Hpi|].
      replace (a / PI * PI) with a by (field; lra).
      lra. }
  lra.
Qed.

Lemma radToDeg_lt_180 (a : R) : a < PI -> Math2.radToDeg a < 180.
Proof.
  intros Ha. unfold Math2.radToDeg, Math2.RAD2DEG.
  pose proof PI_RGT_0 as Hpi.
  apply (Rmult_lt_reg_r PI); [exact Hpi|].
  replace (a * (180 / PI) * PI) with (a * 180) by (field; lra).
  lra.
Qed.

Lemma totalAngleDeg_range (s : State) (now : R) :
  0 <= totalAngleDeg (locals s now) <= 180.
Proof.
  change (totalAngleDeg (locals s now))
    with (Math2.radToDeg (totalAngle (locals s now))).
  apply radToDeg_range, quatAngle__range.
Qed.

Lemma lerpSuppression_range (s : State) (now : R) :
  0 <= lerpSuppression (locals s now) <= 1.
Proof.
  change (lerpSuppression (locals s now))
    with (1 - JS.Math_pow (totalAngleDeg (locals s now) / 180) 4).
  pose proof (lerpSuppression_bound _ (totalAngleDeg_range s now)). lra.
Qed.

Lemma extensionRatio_range (s : State) (now : R) :
  0 <= extensionRatio (locals s now) <= 1.
Proof.
  change (extensionRatio (locals s now))
    with (clamp_ ((controllerXDeg (locals s now) - 11) / (50 - 11)) 0 1).
  apply clamp__ramp.
Qed.

Lemma lerpValue_eq (s : State) (now : R) :
  lerpValue (locals s now) =
  lerpSuppression (locals s now) *
  (ELBOW_BEND_RATIO +
   (1 - ELBOW_BEND_RATIO) * extensionRatio (locals s now) *
   EXTENSION_RATIO_WEIGHT).
Proof. reflexivity. Qed.

Lemma lerpValue_range (s : State) (now : R) :
  0 <= lerpValue (locals s now) <= 0.64.
Proof.
  rewrite lerpValue_eq.
  pose proof (lerpSuppression_range s now).
  pose proof (extensionRatio_range s now).
  unfold ELBOW_BEND_RATIO, EXTENSION_RATIO_WEIGHT. nra.
Qed.

(** *** Norms *)

Lemma EPSILON_small : 0 < JS.EPSILON < 1 / 1000.
Proof. unfold JS.EPSILON. split.
 - apply Rinv_0_lt_compat. apply pow_lt. lra.
 - assert (1000 < 2 ^ 52). { replace (2^52) with (2^10 * 2^42) by ring.
     assert (1 <= 2^42) by (apply pow_R1_Rle; lra). nra. }
   assert (0 < 2^52) by lra.
   unfold Rdiv. rewrite Rmult_1_l. apply Rinv_lt_contravar; nra.
Qed.

Lemma atan2_sin_cos (s c : R) :
  0 <= c -> 0 < s -> c * c + s * s = 1 ->
  sin (JS.Math_atan2 s c) = s /\ cos (JS.Math_atan2 s c) = c.
Proof.
  intros Hc Hs H1. unfold JS.Math_atan2.
  destruct (Rlt_dec 0 c) as [cpos|cz].
  - rewrite sin_atan, cos_atan.
    assert (E : 1 + (s / c)² = (1 / c)²).
    { unfold Rsqr. field_simplify; try lra. rewrite <- H1. field. lra. }
    rewrite E, sqrt_Rsqr.
    + split; field; lra.
    + apply Rlt_le. apply Rdiv_lt_0_compat; lra.
  - assert (c = 0) by lra. subst c.
    destruct (Rlt_dec 0 0) as [F|_]; [lra|].
    destruct (Rlt_dec 0 s) as [_|F]; [|lra].
    rewrite sin_PI2, cos_PI2. split; nra.
Qed.

Lemma Quaternion_lengthSq_multiply (a b : Quaternion.t) :
  Quaternion.lengthSq (Quaternion.multiply a b) =
  Quaternion.lengthSq a * Quaternion.lengthSq b.
Proof. destruct a, b; unfold Quaternion.lengthSq; cbn; ring. Qed.

Lemma Quaternion_lengthSq_inverse (a : Quaternion.t) :
  Quaternion.lengthSq (Quaternion.inverse a) = Quaternion.lengthSq a.
Proof. destruct a; unfold Quaternion.lengthSq; cbn; ring. Qed.

Lemma Quaternion_lengthSq_nonneg (a : Quaternion.t) :
  0 <= Quaternion.lengthSq a.
Proof. destruct a; unfold Quaternion.lengthSq; cbn; nra. Qed.

Lemma Quaternion_lengthSq_normalize (a : Quaternion.t) :
  Quaternion.lengthSq (Quaternion.normalize a) = 1.
Proof.
  unfold Quaternion.normalize, Quaternion.length.
  destruct (Req_dec_T (sqrt (Quaternion.lengthSq a)) 0) as [z|nz].
  - unfold Quaternion.lengthSq; cbn; ring.
  - pose proof (Quaternion_lengthSq_nonneg a) as Hpos.
    pose proof (sqrt_sqrt _ Hpos) as Hs.
    set (l := sqrt (Quaternion.lengthSq a)) in *.
    unfold Quaternion.lengthSq in *; cbn.
    apply (Rmult_eq_reg_r (l * l)); [|nra].
    transitivity ((Quaternion.x a * Quaternion.x a + Quaternion.y a * Quaternion.y a +
                   Quaternion.z a * Quaternion.z a + Quaternion.w a * Quaternion.w a)
                  * ((1 / l * l) * (1 / l * l))); [ring|].
    replace (1 / l * l) with 1 by (field; exact nz). rewrite <- Hs. ring.
Qed.

(** sin²((1-t)h) + sin²(th) + 2 sin((1-t)h) sin(th) cos h = sin² h *)
Lemma slerp_weights (t h : R) :
  sin ((1 - t) * h) * sin ((1 - t) * h) + sin (t * h) * sin (t * h) +
  2 * (sin ((1 - t) * h) * sin (t * h)) * cos h = sin h * sin h.
Proof.
  replace ((1 - t) * h) with (h - t * h) by ring.
  rewrite sin_minus.
  pose proof (sin2_cos2 (t * h)) as E1. pose proof (sin2_cos2 h) as E2.
  unfold Rsqr in *.
  set (S := sin (t * h)) in *. set (C := cos (t * h)) in *.
  set (s := sin h) in *. set (c := cos h) in *.
  replace ((s * C - c * S) * (s * C - c * S) + S * S + 2 * ((s * C - c * S) * S) * c)
    with (s * s * (C * C) + S * S * (1 - c * c)) by ring.
  replace (1 - c * c) with (s * s) by lra.
  replace (C * C) with (1 - S * S) by lra. ring.
Qed.

Section SlerpMainBranch.

(** [a] and [b] are the two ends as [slerp] holds them after its sign
    test, [c] their dot product [cosHalfTheta]. *)
Variables (a b : Quaternion.t) (c t : R).
Hypothesis Ha : Quaternion.lengthSq a = 1.
Hypothesis Hb : Quaternion.lengthSq b = 1.
Hypothesis Hdot :
  Quaternion.w a * Quaternion.w b + Quaternion.x a * Quaternion.x b +
  Quaternion.y a * Quaternion.y b + Quaternion.z a * Quaternion.z b = c.
Hypothesis Hc : 0 <= c.
Hypothesis Heps : ~ 1 - c * c <= JS.EPSILON.

Let sinHalfTheta := sqrt (1 - c * c).
Let halfTheta := JS.Math_atan2 sinHalfTheta c.
Let ratioA := sin ((1 - t) * halfTheta) / sinHalfTheta.
Let ratioB := sin (t * halfTheta) / sinHalfTheta.

Lemma slerp_main_branch_unit :
  Quaternion.lengthSq
    (Quaternion.mk
       (Quaternion.x a * ratioA + Quaternion.x b * ratioB)
       (Quaternion.y a * ratioA + Quaternion.y b * ratioB)
       (Quaternion.z a * ratioA + Quaternion.z b * ratioB)
       (Quaternion.w a * ratioA + Quaternion.w b * ratioB)) = 1.
Proof.
  pose proof EPSILON_small as He.
  assert (Hs2 : 0 < 1 - c * c) by lra.
  pose proof (sqrt_lt_R0 _ Hs2) as Hs.
  pose proof (sqrt_sqrt _ (Rlt_le _ _ Hs2)) as Hss.
  fold sinHalfTheta in Hs, Hss.
  destruct (atan2_sin_cos sinHalfTheta c) as [Es Ec]; [lra|lra|lra|].
  change (sin halfTheta = sinHalfTheta) in Es.
  change (cos halfTheta = c) in Ec.
  pose proof (slerp_weights t halfTheta) as W.
  rewrite Es, Ec in W.
  unfold ratioA, ratioB.
  set (A := sin ((1 - t) * halfTheta)) in *.
  set (B := sin (t * halfTheta)) in *.
  set (s := sinHalfTheta) in *.
  destruct a as [ax ay az aw], b as [bx by_ bz bw].
  unfold Quaternion.lengthSq in *;
    cbn [Quaternion.x Quaternion.y Quaternion.z Quaternion.w] in *.
  apply (Rmult_eq_reg_r (s * s)); [|nra].
  transitivity
    ((A * A * (ax * ax + ay * ay + az * az + aw * aw) +
      B * B * (bx * bx + by_ * by_ + bz * bz + bw * bw) +
      2 * (A * B) * (aw * bw + ax * bx + ay * by_ + az * bz)) *
     ((s / s) * (s / s))).
  { field. lra. }
  replace (s / s) with 1 by (field; lra). rewrite Ha, Hb, Hdot. lra.
Qed.

End SlerpMainBranch.

Lemma Quaternion_lengthSq_slerp (a b : Quaternion.t) (t : R) :
  Quaternion.lengthSq a = 1 -> Quaternion.lengthSq b = 1 ->
  Quaternion.lengthSq (Quaternion.slerp a b t) = 1.
Proof.
  intros Ha Hb. unfold Quaternion.slerp.
  destruct (Req_dec_T t 0); [exact Ha|].
  destruct (Req_dec_T t 1); [rewrite Quaternion_copy_eq; exact Hb|].
  set (d := Quaternion.w a * Quaternion.w b + Quaternion.x a * Quaternion.x b +
            Quaternion.y a * Quaternion.y b + Quaternion.z a * Quaternion.z b).
  destruct (Rlt_dec d 0) as [neg|pos].
  - destruct (Rle_dec 1 (- d));
      [destruct a; unfold Quaternion.lengthSq in *; cbn in *; lra|].
    destruct (Rle_dec (1 - - d * - d) JS.EPSILON) as [|far];
      [apply Quaternion_lengthSq_normalize|].
    apply (slerp_main_branch_unit a
             (Quaternion.mk (- Quaternion.x b) (- Quaternion.y b)
                            (- Quaternion.z b) (- Quaternion.w b)) (- d) t);
      try assumption; try lra.
    + destruct b; unfold Quaternion.lengthSq in *; cbn in *; lra.
    + unfold d; cbn; ring.
  - destruct (Rle_dec 1 d);
      [destruct a; unfold Quaternion.lengthSq in *; cbn in *; lra|].
    destruct (Rle_dec (1 - d * d) JS.EPSILON) as [|far];
      [apply Quaternion_lengthSq_normalize|].
    rewrite Quaternion_copy_eq.
    apply (slerp_main_branch_unit a b d t); try assumption; try lra.
    reflexivity.
Qed.

Lemma Quaternion_lengthSq_setFromEuler (e : Euler.t) :
  Quaternion.lengthSq (QuaternionOfEuler.setFromEuler e) = 1.
Proof.
  destruct e as [ex ey ez []].
  unfold QuaternionOfEuler.setFromEuler, Quaternion.lengthSq; cbn.
  pose proof (sin2_cos2 (ex / 2)) as E1.
  pose proof (sin2_cos2 (ey / 2)) as E2.
  pose proof (sin2_cos2 (ez / 2)) as E3.
  unfold Rsqr in *.
  set (s1 := sin (ex / 2)) in *. set (c1 := cos (ex / 2)) in *.
  set (s2 := sin (ey / 2)) in *. set (c2 := cos (ey / 2)) in *.
  set (s3 := sin (ez / 2)) in *. set (c3 := cos (ez / 2)) in *.
  transitivity ((s1 * s1 + c1 * c1) * (s2 * s2 + c2 * c2) * (s3 * s3 + c3 * c3));
    [ring|].
  rewrite E1, E2, E3. ring.
Qed.

Lemma getHeadYawOrientation__unit (s : State) :
  Quaternion.lengthSq (getHeadYawOrientation_ s) = 1.
Proof. apply Quaternion_lengthSq_setFromEuler. Qed.

Lemma rootQ_update_unit (s : State) (now : R) :
  Quaternion.lengthSq (rootQ s) = 1 ->
  Quaternion.lengthSq (rootQ (update s now)) = 1.
Proof.
  intros H. rewrite rootQ_update.
  destruct (JS.gt _ _).
  - apply Quaternion_lengthSq_slerp; [exact H|apply getHeadYawOrientation__unit].
  - apply getHeadYawOrientation__unit.
Qed.

Lemma controllerCameraQ_unit (s : State) (now : R) :
  Quaternion.lengthSq (rootQ s) = 1 ->
  Quaternion.lengthSq (controllerQ s) = 1 ->
  Quaternion.lengthSq (controllerCameraQ (locals s now)) = 1.
Proof.
  intros Hr Hc.
  rewrite controllerCameraQ_eq, Quaternion_lengthSq_multiply,
    Quaternion_lengthSq_inverse, rootQ_update_unit, Hc by exact Hr.
  ring.
Qed.

Lemma Vector3_lengthSq_applyQuaternion (v : Vector3.t) (q : Quaternion.t) :
  Vector3.lengthSq (Vector3.applyQuaternion v q) =
  Quaternion.lengthSq q * Quaternion.lengthSq q * Vector3.lengthSq v.
Proof.
  destruct v, q; unfold Vector3.lengthSq, Quaternion.lengthSq; cbn; ring.
Qed.

Lemma clamp_in_range (v : R) : -1 <= v <= 1 -> Math2.clamp v (-1) 1 = v.
Proof.
  intros H. unfold Math2.clamp, JS.Math_max, JS.Math_min.
  rewrite Rmin_right, Rmax_right; lra.
Qed.


Lemma Quaternion_lengthSq_new : Quaternion.lengthSq Quaternion.new = 1.
Proof. unfold Quaternion.lengthSq, Quaternion.new; cbn; ring. Qed.

Lemma multiply_inverse_cancel (a b : Quaternion.t) :
  Quaternion.lengthSq b = 1 ->
  Quaternion.multiply (Quaternion.multiply a (Quaternion.inverse b)) b = a.
Proof.
  destruct a as [ax ay az aw], b as [bx by_ bz bw].
  unfold Quaternion.lengthSq, Quaternion.multiply, Quaternion.inverse,
    Quaternion.multiplyQuaternions, Quaternion.conjugate; cbn. intros Hb.
  f_equal.
  - transitivity ((bx * bx + by_ * by_ + bz * bz + bw * bw) * ax); [ring|].
    rewrite Hb; ring.
  - transitivity ((bx * bx + by_ * by_ + bz * bz + bw * bw) * ay); [ring|].
    rewrite Hb; ring.
  - transitivity ((bx * bx + by_ * by_ + bz * bz + bw * bw) * az); [ring|].
    rewrite Hb; ring.
  - transitivity ((bx * bx + by_ * by_ + bz * bz + bw * bw) * aw); [ring|].
    rewrite Hb; ring.
Qed.

(** *** The speed test *)

Lemma gt_div_nonzero (a d c : R) :
  d <> 0 -> (JS.gt (JS.div a d) c = true <-> c < a / d).
Proof.
  intros Hd. unfold JS.div, JS.gt.
  destruct (Req_dec_T d 0) as [z|_]; [contradiction|].
  destruct (Rlt_dec c (a / d)); split; intros; try assumption;
    try reflexivity; try discriminate; contradiction.
Qed.


(** *** The quarter-turn scenario *)

Lemma applyQuaternion_new (v : Vector3.t) :
  Vector3.applyQuaternion v Quaternion.new = v.
Proof.
  destruct v; unfold Vector3.applyQuaternion; cbn; f_equal; ring.
Qed.

Lemma inv_sqrt2_sq : / sqrt 2 * / sqrt 2 = 1 / 2.
Proof.
  assert (H2 : 0 <= 2) by lra.
  pose proof (sqrt_sqrt 2 H2) as Hs.
  pose proof (sqrt_lt_R0 2 ltac:(lra)) as Hpos.
  rewrite <- Rinv_mult, Hs. lra.
Qed.

Lemma quarterTurn_angleDelta (s : State) (now : R) :
  lastControllerQ s = Quaternion.new ->
  controllerQ s = Scenario.quarterTurnQ ->
  angleDelta (locals s now) = PI / 2.
Proof.
  intros Hl Hc. rewrite angleDelta_eq, Hl, Hc.
  unfold quatAngle_. rewrite applyQuaternion_new.
  unfold Vector3.angleTo.
  assert (E : Vector3.applyQuaternion (Vector3.mk 0 0 (-1)) Scenario.quarterTurnQ
              = Vector3.mk (-1) 0 0).
  { unfold Vector3.applyQuaternion, Scenario.quarterTurnQ; cbn.
    pose proof inv_sqrt2_sq as H. set (r := / sqrt 2) in *.
    f_equal; nra. }
  rewrite E.
  replace (Vector3.dot (Vector3.mk 0 0 (-1)) (Vector3.mk (-1) 0 0)) with 0
    by (unfold Vector3.dot; cbn; ring).
  unfold Rdiv. rewrite Rmult_0_l, clamp_in_range by lra.
  apply acos_0.
Qed.

Lemma first_timeDelta (s : State) (now : R) :
  lastTime s = None -> timeDelta (locals s now) = now / 1000.
Proof.
  intros H. rewrite timeDelta_eq, H. cbn [JS.toNumber]. f_equal. ring.
Qed.

(** *** The wrist position *)

Lemma atan2_first_quadrant (s c : R) :
  0 < c -> 0 < s -> 0 < JS.Math_atan2 s c < PI / 2.
Proof.
  intros Hc Hs. unfold JS.Math_atan2.
  destruct (Rlt_dec 0 c) as [_|F]; [|contradiction].
  assert (0 < s / c) by (apply Rdiv_lt_0_compat; assumption).
  pose proof (atan_increasing 0 (s / c) H) as Hinc. rewrite atan_0 in Hinc.
  pose proof (atan_bound (s / c)). lra.
Qed.

Lemma slerp_new_new (t : R) :
  Quaternion.slerp Quaternion.new Quaternion.new t = Quaternion.new.
Proof.
  unfold Quaternion.slerp.
  destruct (Req_dec_T t 0); [reflexivity|].
  destruct (Req_dec_T t 1); [reflexivity|].
  unfold Quaternion.new; cbn [Quaternion.x Quaternion.y Quaternion.z Quaternion.w].
  match goal with |- context [Rlt_dec ?d 0] => replace d with 1 by ring end.
  destruct (Rlt_dec 1 0); [lra|].
  destruct (Rle_dec 1 1); [reflexivity|lra].
Qed.

Lemma slerp_new_yawed (t : R) :
  0 < t < 1 ->
  0 < Quaternion.y (Quaternion.slerp Quaternion.new Scenario.yawedQ t) /\
  0 < Quaternion.w (Quaternion.slerp Quaternion.new Scenario.yawedQ t).
Proof.
  intros Ht. unfold Quaternion.slerp.
  destruct (Req_dec_T t 0); [lra|].
  destruct (Req_dec_T t 1); [lra|].
  unfold Quaternion.new, Scenario.yawedQ, Quaternion.copy;
    cbn [Quaternion.x Quaternion.y Quaternion.z Quaternion.w].
  match goal with |- context [Rlt_dec ?d 0] => replace d with 0.8 by ring end.
  destruct (Rlt_dec 0.8 0); [lra|].
  destruct (Rle_dec 1 0.8); [lra|].
  pose proof EPSILON_small as He.
  destruct (Rle_dec (1 - 0.8 * 0.8) JS.EPSILON); [lra|].
  assert (Hs : 0 < sqrt (1 - 0.8 * 0.8)) by (apply sqrt_lt_R0; lra).
  set (s := sqrt (1 - 0.8 * 0.8)) in *.
  destruct (atan2_first_quadrant s 0.8) as [h0 h1]; [lra|exact Hs|].
  set (h := JS.Math_atan2 s 0.8) in *.
  assert (HA : 0 < sin ((1 - t) * h) / s).
  { apply Rdiv_lt_0_compat; [|exact Hs]. pose proof PI_RGT_0.
    apply sin_gt_0; nra. }
  assert (HB : 0 < sin (t * h) / s).
  { apply Rdiv_lt_0_compat; [|exact Hs]. pose proof PI_RGT_0.
    apply sin_gt_0; nra. }
  cbn [Quaternion.x Quaternion.y Quaternion.z Quaternion.w].
  split; lra.
Qed.

Lemma Vector3_add_cancel_r (a b p : Vector3.t) :
  Vector3.add a p = Vector3.add b p -> a = b.
Proof.
  destruct a, b, p; unfold Vector3.add; cbn. intros H.
  injection H as Hx Hy Hz. f_equal; lra.
Qed.

Lemma sum_of_squares_zero (a b c : R) :
  a * a + b * b + c * c = 0 -> a = 0 /\ b = 0 /\ c = 0.
Proof.
  intros H.
  assert (Ha : a * a = 0) by nra.
  assert (Hb : b * b = 0) by nra.
  assert (Hc : c * c = 0) by nra.
  apply Rsqr_0_uniq in Ha, Hb, Hc. tauto.
Qed.

Lemma applyQuaternion_sub (v v' : Vector3.t) (q : Quaternion.t) :
  Vector3.applyQuaternion (Vector3.sub v v') q =
  Vector3.sub (Vector3.applyQuaternion v q) (Vector3.applyQuaternion v' q).
Proof.
  destruct v, v', q; unfold Vector3.applyQuaternion, Vector3.sub; cbn.
  f_equal; ring.
Qed.

Lemma Vector3_sub_diag (v : Vector3.t) : Vector3.lengthSq (Vector3.sub v v) = 0.
Proof. destruct v; unfold Vector3.lengthSq, Vector3.sub; cbn; ring. Qed.

Lemma Vector3_sub_zero (v v' : Vector3.t) :
  Vector3.lengthSq (Vector3.sub v v') = 0 -> v = v'.
Proof.
  destruct v as [a b c], v' as [a' b' c'].
  unfold Vector3.lengthSq, Vector3.sub; cbn. intros H.
  apply sum_of_squares_zero in H. f_equal; lra.
Qed.

Lemma applyQuaternion_inj (v v' : Vector3.t) (q : Quaternion.t) :
  Quaternion.lengthSq q <> 0 ->
  Vector3.applyQuaternion v q = Vector3.applyQuaternion v' q -> v = v'.
Proof.
  intros Hq H. apply Vector3_sub_zero.
  pose proof (Vector3_lengthSq_applyQuaternion (Vector3.sub v v') q) as E.
  rewrite applyQuaternion_sub, H, Vector3_sub_diag in E.
  pose proof (Quaternion_lengthSq_nonneg q) as Hpos.
  assert (Hsq : 0 < Quaternion.lengthSq q * Quaternion.lengthSq q) by nra.
  apply (Rmult_eq_reg_l (Quaternion.lengthSq q * Quaternion.lengthSq q));
    [|lra].
  rewrite <- E. ring.
Qed.

Lemma wrist_rotations_agree_only_if (w e : Quaternion.t) (p : Vector3.t) :
  Quaternion.lengthSq e <> 0 ->
  Vector3.add
    (Vector3.applyQuaternion
       (Vector3.add
          (Vector3.applyQuaternion WRIST_CONTROLLER_OFFSET (Quaternion.inverse w))
          ELBOW_WRIST_OFFSET) e) p =
  Vector3.add
    (Vector3.applyQuaternion
       (Vector3.add
          (Vector3.applyQuaternion WRIST_CONTROLLER_OFFSET w)
          ELBOW_WRIST_OFFSET) e) p ->
  Quaternion.w w * Quaternion.y w = 0.
Proof.
  intros He H.
  apply Vector3_add_cancel_r, (applyQuaternion_inj _ _ e He),
    Vector3_add_cancel_r in H.
  destruct w as [qx qy qz qw].
  unfold Vector3.applyQuaternion, WRIST_CONTROLLER_OFFSET, Quaternion.inverse,
    Quaternion.conjugate in H; cbn in H.
  injection H as Hx _ _. cbn. lra.
Qed.

Lemma atan2_0_1 : JS.Math_atan2 0 1 = 0.
Proof.
  unfold JS.Math_atan2. destruct (Rlt_dec 0 1); [|lra].
  replace (0 / 1) with 0 by field. apply atan_0.
Qed.

Lemma headYaw_of_identity (s : State) :
  headQ s = Quaternion.new -> getHeadYawOrientation_ s = Quaternion.new.
Proof.
  intros H. unfold getHeadYawOrientation_. rewrite H.
  unfold Euler.setFromQuaternion.
  assert (M : Matrix4.makeRotationFromQuaternion Quaternion.new =
              Matrix4.mk 1 0 0 0 1 0 0 0 1).
  { unfold Matrix4.makeRotationFromQuaternion, Quaternion.new; cbn.
    f_equal; ring. }
  rewrite M. unfold Euler.setFromRotationMatrix.
  cbn [Matrix4.m11 Matrix4.m13 Matrix4.m21 Matrix4.m22 Matrix4.m23
       Matrix4.m31 Matrix4.m33].
  rewrite Rabs_R0. destruct (Rlt_dec 0 0.99999); [|lra].
  unfold Euler.set_x, Euler.set_z, QuaternionOfEuler.setFromEuler.
  cbn [Euler.x Euler.y Euler.z Euler.ord].
  rewrite atan2_0_1. replace (0 / 2) with 0 by field.
  rewrite sin_0, cos_0. unfold Quaternion.new. f_equal; ring.
Qed.

Lemma yawed_rootQ (now : R) : rootQ (update Scenario.yawed now) = Quaternion.new.
Proof.
  rewrite rootQ_update, headYawQ_eq, headYaw_of_identity by reflexivity.
  change (rootQ Scenario.yawed) with Quaternion.new.
  rewrite slerp_new_new. destruct (JS.gt _ _); reflexivity.
Qed.

Lemma yawed_controllerCameraQ (now : R) :
  controllerCameraQ (locals Scenario.yawed now) = Scenario.yawedQ.
Proof.
  rewrite controllerCameraQ_eq, yawed_rootQ.
  change (controllerQ Scenario.yawed) with Scenario.yawedQ.
  unfold Quaternion.multiply, Quaternion.multiplyQuaternions, Quaternion.inverse,
    Quaternion.conjugate, Quaternion.new, Scenario.yawedQ; cbn.
  f_equal; ring.
Qed.

Lemma yawedQ_unit : Quaternion.lengthSq Scenario.yawedQ = 1.
Proof. unfold Quaternion.lengthSq, Scenario.yawedQ; cbn; lra. Qed.

Lemma yawed_totalAngle (now : R) : totalAngle (locals Scenario.yawed now) < PI.
Proof.
  change (totalAngle (locals Scenario.yawed now))
    with (quatAngle_ (controllerCameraQ (locals Scenario.yawed now)) Quaternion.new).
  rewrite yawed_controllerCameraQ.
  unfold quatAngle_. rewrite applyQuaternion_new. unfold Vector3.angleTo.
  assert (E : Vector3.applyQuaternion (Vector3.mk 0 0 (-1)) Scenario.yawedQ
              = Vector3.mk (-0.96) 0 (-0.28)).
  { unfold Vector3.applyQuaternion, Scenario.yawedQ; cbn. f_equal; lra. }
  rewrite E.
  replace (Vector3.dot (Vector3.mk (-0.96) 0 (-0.28)) (Vector3.mk 0 0 (-1)))
    with 0.28 by (unfold Vector3.dot; cbn; lra).
  replace (Vector3.lengthSq (Vector3.mk (-0.96) 0 (-0.28)) *
           Vector3.lengthSq (Vector3.mk 0 0 (-1)))
    with 1 by (unfold Vector3.lengthSq; cbn; lra).
  rewrite sqrt_1. replace (0.28 / 1) with 0.28 by field.
  rewrite clamp_in_range by lra.
  apply acos_bound_lt. lra.
Qed.

Lemma yawed_lerpValue (now : R) : 0 < lerpValue (locals Scenario.yawed now) < 1.
Proof.
  pose proof (lerpValue_range Scenario.yawed now) as Hr.
  split; [|lra].
  rewrite lerpValue_eq.
  pose proof (extensionRatio_range Scenario.yawed now) as He.
  assert (Hs : 0 < lerpSuppression (locals Scenario.yawed now)).
  { change (lerpSuppression (locals Scenario.yawed now))
      with (1 - JS.Math_pow (totalAngleDeg (locals Scenario.yawed now) / 180) 4).
    pose proof (totalAngleDeg_range Scenario.yawed now) as Hd.
    assert (Hlt : totalAngleDeg (locals Scenario.yawed now) < 180)
      by apply radToDeg_lt_180, yawed_totalAngle.
    unfold JS.Math_pow. rewrite pow4_split.
    set (u := totalAngleDeg (locals Scenario.yawed now) / 180).
    assert (0 <= u < 1) by (unfold u; lra).
    assert (0 <= u * u < 1) by nra. nra. }
  unfold ELBOW_BEND_RATIO, EXTENSION_RATIO_WEIGHT. nra.
Qed.

Lemma wristPos_update (s : State) (now : R) :
  wristPos (update s now) =
  Vector3.add
    (Vector3.applyQuaternion
       (Vector3.add
          (Vector3.applyQuaternion WRIST_CONTROLLER_OFFSET (wristQ (locals s now)))
          ELBOW_WRIST_OFFSET)
       (elbowQ (locals s now)))
    (elbowPos (update s now)).
Proof. reflexivity. Qed.

Lemma wristQ_eq (s : State) (now : R) :
  wristQ (locals s now) =
  Quaternion.inverse
    (Spec.wristQ (controllerCameraQ (locals s now)) (lerpValue (locals s now))).
Proof. reflexivity. Qed.

Lemma elbowQ_eq (s : State) (now : R) :
  elbowQ (locals s now) =
  Spec.elbowQ (controllerCameraQ (locals s now)) (lerpValue (locals s now)).
Proof.
  rewrite <- (Quaternion_clone_eq (controllerCameraQ (locals s now))) at 1.
  reflexivity.
Qed.

(** *** A head and a controller both a quarter turn away *)

Lemma atan2_1_0 : JS.Math_atan2 1 0 = PI / 2.
Proof.
  unfold JS.Math_atan2.
  destruct (Rlt_dec 0 0); [lra|]. destruct (Rlt_dec 0 1); [reflexivity|lra].
Qed.

Lemma quarterTurnHead_headYawQ :
  getHeadYawOrientation_ Scenario.quarterTurnHead = Scenario.quarterTurnQ.
Proof.
  unfold getHeadYawOrientation_.
  change (headQ Scenario.quarterTurnHead) with Scenario.quarterTurnQ.
  unfold Euler.setFromQuaternion.
  assert (M : Matrix4.makeRotationFromQuaternion Scenario.quarterTurnQ =
              Matrix4.mk 0 0 1 0 1 0 (-1) 0 0).
  { unfold Matrix4.makeRotationFromQuaternion, Scenario.quarterTurnQ; cbn.
    pose proof inv_sqrt2_sq as H. set (r := / sqrt 2) in *.
    f_equal; nra. }
  rewrite M. unfold Euler.setFromRotationMatrix.
  cbn [Matrix4.m11 Matrix4.m13 Matrix4.m21 Matrix4.m22 Matrix4.m23
       Matrix4.m31 Matrix4.m33].
  rewrite Rabs_R0. destruct (Rlt_dec 0 0.99999); [|lra].
  unfold Euler.set_x, Euler.set_z, QuaternionOfEuler.setFromEuler.
  cbn [Euler.x Euler.y Euler.z Euler.ord].
  rewrite atan2_1_0. replace (0 / 2) with 0 by field.
  replace (PI / 2 / 2) with (PI / 4) by field.
  rewrite sin_0, cos_0, sin_PI4, cos_PI4.
  unfold Scenario.quarterTurnQ. f_equal; field;
    apply Rgt_not_eq, sqrt_lt_R0; lra.
Qed.

Lemma slerp_new_quarterTurn (t : R) :
  0 < t < 1 ->
  Quaternion.y (Quaternion.slerp Quaternion.new Scenario.quarterTurnQ t)
  < Quaternion.y Scenario.quarterTurnQ.
Proof.
  intros Ht. unfold Quaternion.slerp.
  destruct (Req_dec_T t 0); [lra|].
  destruct (Req_dec_T t 1); [lra|].
  pose proof inv_sqrt2_sq as Hr.
  assert (Hr0 : 0 < / sqrt 2) by (apply Rinv_0_lt_compat, sqrt_lt_R0; lra).
  unfold Quaternion.new, Scenario.quarterTurnQ, Quaternion.copy;
    cbn [Quaternion.x Quaternion.y Quaternion.z Quaternion.w].
  set (r := / sqrt 2) in *.
  match goal with |- context [Rlt_dec ?d 0] => replace d with r by ring end.
  destruct (Rlt_dec r 0); [lra|].
  destruct (Rle_dec 1 r); [nra|].
  pose proof EPSILON_small as He.
  destruct (Rle_dec (1 - r * r) JS.EPSILON); [lra|].
  assert (Hs : 0 < sqrt (1 - r * r)) by (apply sqrt_lt_R0; lra).
  destruct (atan2_sin_cos (sqrt (1 - r * r)) r) as [Es _];
    [lra|exact Hs|rewrite sqrt_sqrt; lra|].
  destruct (atan2_first_quadrant (sqrt (1 - r * r)) r) as [h0 h1];
    [lra|exact Hs|].
  set (s := sqrt (1 - r * r)) in *.
  set (h := JS.Math_atan2 s r) in *.
  cbn [Quaternion.x Quaternion.y Quaternion.z Quaternion.w].
  assert (Hlt : sin (t * h) < s).
  { rewrite <- Es. apply sin_increasing_1; nra. }
  assert (HB : sin (t * h) / s < 1).
  { apply (Rmult_lt_reg_r s); [exact Hs|].
    replace (sin (t * h) / s * s) with (sin (t * h)) by (field; lra). lra. }
  nra.
Qed.

(** *** The divisor of [angleTo] *)

Lemma quatAngle__divisor_unit (q1 q2 : Quaternion.t) :
  Quaternion.lengthSq q1 = 1 -> Quaternion.lengthSq q2 = 1 ->
  Divisions.quatAngle__divisor q1 q2 = 1.
Proof.
  intros H1 H2. unfold Divisions.quatAngle__divisor, Divisions.angleTo_divisor.
  rewrite !Vector3_lengthSq_applyQuaternion, H1, H2.
  replace (Vector3.lengthSq (Vector3.mk 0 0 (-1))) with 1
    by (unfold Vector3.lengthSq; cbn; ring).
  replace (1 * 1 * 1 * (1 * 1 * 1)) with 1 by ring. apply sqrt_1.
Qed.

Lemma angleTo_divisor_eq (this v : Vector3.t) :
  Vector3.angleTo this v =
  acos (Math2.clamp (Vector3.dot this v / Divisions.angleTo_divisor this v)
                    (-1) 1).
Proof. reflexivity. Qed.

(** *** Two calls of [update] with no setter in between *)

Lemma quatAngle__new_yawed :
  quatAngle_ Quaternion.new Scenario.yawedQ = acos 0.28.
Proof.
  unfold quatAngle_. rewrite applyQuaternion_new. unfold Vector3.angleTo.
  assert (E : Vector3.applyQuaternion (Vector3.mk 0 0 (-1)) Scenario.yawedQ
              = Vector3.mk (-0.96) 0 (-0.28)).
  { unfold Vector3.applyQuaternion, Scenario.yawedQ; cbn. f_equal; lra. }
  rewrite E.
  replace (Vector3.dot (Vector3.mk 0 0 (-1)) (Vector3.mk (-0.96) 0 (-0.28)))
    with 0.28 by (unfold Vector3.dot; cbn; lra).
  replace (Vector3.lengthSq (Vector3.mk 0 0 (-1)) *
           Vector3.lengthSq (Vector3.mk (-0.96) 0 (-0.28)))
    with 1 by (unfold Vector3.lengthSq; cbn; lra).
  rewrite sqrt_1. replace (0.28 / 1) with 0.28 by field.
  rewrite clamp_in_range by lra. reflexivity.
Qed.

(** Without [lastControllerQ = controllerQ] the second of two calls in a
    row does not snap: [update] leaves [lastControllerQ] as the setter put
    it, so [angleDelta] is what it was in the first call, and with no time
    elapsed the speed is [+Infinity]. *)
Lemma moved_controller_second_update_is_fast :
  lastControllerQ Scenario.moved <> controllerQ Scenario.moved /\
  angleDelta (locals Scenario.moved 1000) = acos 0.28 /\
  timeDelta (locals Scenario.moved 1000) = 0 /\
  controllerAngularSpeed (locals Scenario.moved 1000) = JS.PosInfinity /\
  JS.gt (controllerAngularSpeed (locals Scenario.moved 1000))
        MIN_ANGULAR_SPEED = true.
Proof.
  assert (Ha : angleDelta (locals Scenario.moved 1000) = acos 0.28).
  { rewrite angleDelta_eq. exact quatAngle__new_yawed. }
  assert (Ht : timeDelta (locals Scenario.moved 1000) = 0).
  { rewrite timeDelta_eq.
    change (JS.toNumber (lastTime Scenario.moved)) with 1000. lra. }
  assert (Hpos : 0 < acos 0.28) by (apply acos_bound_lt; lra).
  assert (Hs : controllerAngularSpeed (locals Scenario.moved 1000)
               = JS.PosInfinity).
  { rewrite controllerAngularSpeed_eq, Ha, Ht. unfold JS.div.
    destruct (Req_dec_T 0 0) as [_|F]; [|contradiction].
    destruct (Rlt_dec 0 (acos 0.28)) as [_|F]; [reflexivity|contradiction]. }
  split.
  { change (lastControllerQ Scenario.moved) with Quaternion.new.
    change (controllerQ Scenario.moved) with Scenario.yawedQ.
    unfold Quaternion.new, Scenario.yawedQ. intros H.
    injection H as Hy Hw. lra. }
  split; [exact Ha|]. split; [exact Ht|]. split; [exact Hs|].
  rewrite Hs. reflexivity.
Qed.

End ArmModelFacts.

(** ** Properties of the specification *)

Import OrientationArmModel.

(** C1.  After any sequence of calls that ends with [update()], the
    orientation of the pose returned by [getPose()] is the quaternion last
    passed to [setControllerOrientation] (the initial [controllerQ] when the
    setter was never called), component for component; so it has unit norm
    whenever that input has. *)
Theorem C1_pose_orientation_is_controller_input
  (s : State) (calls : list call) (now : R) :
  let q := lastControllerInput calls (controllerQ s) in
  let s' := run s (calls ++ Update now :: nil) in
  orientation (getPose s') = q /\
  Quaternion.x (orientation (getPose s')) = Quaternion.x q /\
  Quaternion.y (orientation (getPose s')) = Quaternion.y q /\
  Quaternion.z (orientation (getPose s')) = Quaternion.z q /\
  Quaternion.w (orientation (getPose s')) = Quaternion.w q /\
  (Quaternion.lengthSq q = 1 ->
   Quaternion.lengthSq (orientation (getPose s')) = 1).
Proof.
  intros q s'.
  assert (E : orientation (getPose s') = q).
  { unfold s', getPose. rewrite run_app. cbn [run List.fold_left exec].
    rewrite pose_orientation_update. apply controllerQ_run. }
  rewrite E. repeat split; auto.
Qed.

Lemma C1_witness :
  Quaternion.lengthSq Quaternion.new = 1 /\
  Quaternion.lengthSq
    (orientation
       (getPose (run constructor
                     (SetControllerOrientation Quaternion.new
                      :: Update 16 :: nil)))) = 1.
Proof.
  assert (H : Quaternion.lengthSq Quaternion.new = 1).
  { unfold Quaternion.lengthSq, Quaternion.new; cbn; lra. }
  split; [exact H|].
  apply (C1_pose_orientation_is_controller_input constructor
           (SetControllerOrientation Quaternion.new :: nil) 16).
  exact H.
Defined.

(** C2.  What [update] stores in [wristPos] is [elbowPos + elbowQ *
    (ELBOW_WRIST_OFFSET + inverse(wristQ) * WRIST_CONTROLLER_OFFSET)], with
    [wristQ] the slerp of step 13: [wristQ.inverse()] has inverted the
    object [wristQ] before line 325 rotates by it.  On a fresh instance
    given a controller yawed by about 73.7 degrees this differs from the
    forward kinematics of the specification, which rotates by [wristQ]. *)
Theorem C2_wristPos_rotates_by_inverted_wristQ :
  (forall s now,
      let L := locals s now in
      wristPos (update s now) =
        Vector3.add
          (Vector3.applyQuaternion
             (Vector3.add
                (Vector3.applyQuaternion
                   WRIST_CONTROLLER_OFFSET
                   (Quaternion.inverse
                      (Spec.wristQ (controllerCameraQ L) (lerpValue L))))
                ELBOW_WRIST_OFFSET)
             (Spec.elbowQ (controllerCameraQ L) (lerpValue L)))
          (elbowPos (update s now))) /\
  (let s := Scenario.yawed in
   let L := locals s 1000 in
   wristPos (update s 1000) <>
   Spec.wristPos (elbowPos (update s 1000)) (controllerCameraQ L) (lerpValue L)).
Proof.
  split.
  { intros s now. cbv zeta.
    rewrite wristPos_update, wristQ_eq, elbowQ_eq. reflexivity. }
  cbv zeta. intros Heq.
  rewrite wristPos_update, wristQ_eq, elbowQ_eq in Heq.
  unfold Spec.wristPos in Heq.
  pose proof (yawed_lerpValue 1000) as Ht.
  rewrite yawed_controllerCameraQ in Heq.
  set (t := lerpValue (locals Scenario.yawed 1000)) in *.
  apply wrist_rotations_agree_only_if in Heq.
  - destruct (slerp_new_yawed t Ht) as [Hy Hw].
    unfold Spec.wristQ in Heq. nra.
  - unfold Spec.elbowQ, Spec.wristQ.
    change (Quaternion.multiplyQuaternions ?a ?b) with (Quaternion.multiply a b).
    change (Quaternion.conjugate ?a) with (Quaternion.inverse a).
    rewrite Quaternion_lengthSq_multiply, Quaternion_lengthSq_inverse,
      Quaternion_lengthSq_slerp, yawedQ_unit;
      [lra|apply Quaternion_lengthSq_new|apply yawedQ_unit].
Qed.

(** C3.  [controllerAngularSpeed] is [angleDelta / timeDelta]; when it
    exceeds [MIN_ANGULAR_SPEED = 0.61], [rootQ] becomes the slerp of the old
    [rootQ] toward [headYawQ] at the fraction [angleDelta / 10], and
    otherwise [rootQ] becomes [headYawQ] itself.  A 90-degree change of
    pointing direction within 16 ms takes the slerp branch, at the fraction
    [PI / 20], at most one fifth; with the head a quarter turn away from
    [rootQ] as well, the new [rootQ] is then not [headYawQ]. *)
Theorem C3_root_follows_head_yaw (s : State) (now : R) :
  let L := locals s now in
  MIN_ANGULAR_SPEED = 0.61 /\
  controllerAngularSpeed L = JS.div (angleDelta L) (timeDelta L) /\
  (timeDelta L <> 0 ->
   (JS.gt (controllerAngularSpeed L) MIN_ANGULAR_SPEED = true <->
    MIN_ANGULAR_SPEED < angleDelta L / timeDelta L)) /\
  (JS.gt (controllerAngularSpeed L) MIN_ANGULAR_SPEED = true ->
   rootQ (update s now) =
     Quaternion.slerp (rootQ s) (headYawQ L) (angleDelta L / 10)) /\
  (JS.gt (controllerAngularSpeed L) MIN_ANGULAR_SPEED = false ->
   rootQ (update s now) = headYawQ L) /\
  (angleDelta L = PI / 2 -> timeDelta L = 16 / 1000 ->
   JS.gt (controllerAngularSpeed L) MIN_ANGULAR_SPEED = true /\
   rootQ (update s now) = Quaternion.slerp (rootQ s) (headYawQ L) (PI / 20) /\
   0 < PI / 20 <= 1 / 5) /\
  (let s0 := Scenario.quarterTurnHead in
   angleDelta (locals s0 16) = PI / 2 /\
   timeDelta (locals s0 16) = 16 / 1000 /\
   rootQ (update s0 16) <> headYawQ (locals s0 16)).
Proof.
  cbv zeta.
  split; [reflexivity|]. split; [reflexivity|].
  split; [intros Hd; apply gt_div_nonzero, Hd|].
  split; [intros Hgt; rewrite rootQ_update, Hgt; reflexivity|].
  split; [intros Hgt; rewrite rootQ_update, Hgt; reflexivity|].
  pose proof PI_RGT_0 as Hpi. pose proof PI_4 as Hpi4.
  assert (fast : forall s1 now1,
             angleDelta (locals s1 now1) = PI / 2 ->
             timeDelta (locals s1 now1) = 16 / 1000 ->
             JS.gt (controllerAngularSpeed (locals s1 now1))
                   MIN_ANGULAR_SPEED = true /\
             rootQ (update s1 now1) =
               Quaternion.slerp (rootQ s1) (headYawQ (locals s1 now1))
                                (PI / 20)).
  { intros s1 now1 Ha Ht.
    assert (Hgt : JS.gt (controllerAngularSpeed (locals s1 now1))
                        MIN_ANGULAR_SPEED = true).
    { rewrite controllerAngularSpeed_eq.
      apply gt_div_nonzero; rewrite Ht; [lra|].
      rewrite Ha. unfold MIN_ANGULAR_SPEED.
      replace (PI / 2 / (16 / 1000)) with (PI / 2 * (1000 / 16)) by field.
      pose proof PI2_1. lra. }
    split; [exact Hgt|].
    rewrite rootQ_update, Hgt, Ha. f_equal. field. }
  split.
  { intros Ha Ht. destruct (fast s now Ha Ht) as [Hgt Hroot].
    split; [exact Hgt|]. split; [exact Hroot|lra]. }
  assert (Ha : angleDelta (locals Scenario.quarterTurnHead 16) = PI / 2)
    by (apply quarterTurn_angleDelta; reflexivity).
  assert (Ht : timeDelta (locals Scenario.quarterTurnHead 16) = 16 / 1000)
    by (apply first_timeDelta; reflexivity).
  split; [exact Ha|]. split; [exact Ht|].
  destruct (fast _ _ Ha Ht) as [_ Hroot]. rewrite Hroot.
  rewrite headYawQ_eq, quarterTurnHead_headYawQ.
  change (rootQ Scenario.quarterTurnHead) with Quaternion.new.
  intros Heq.
  assert (Hy : 0 < PI / 20 < 1) by lra.
  apply slerp_new_quarterTurn in Hy. rewrite Heq in Hy. lra.
Qed.

Lemma C3_witness :
  angleDelta (locals Scenario.quarterTurn 16) = PI / 2 /\
  timeDelta (locals Scenario.quarterTurn 16) = 16 / 1000 /\
  rootQ (update Scenario.quarterTurn 16) =
    Quaternion.slerp (rootQ Scenario.quarterTurn)
                     (headYawQ (locals Scenario.quarterTurn 16)) (PI / 20).
Proof.
  assert (Ha : angleDelta (locals Scenario.quarterTurn 16) = PI / 2)
    by (apply quarterTurn_angleDelta; reflexivity).
  assert (Ht : timeDelta (locals Scenario.quarterTurn 16) = 16 / 1000)
    by (apply first_timeDelta; reflexivity).
  split; [exact Ha|]. split; [exact Ht|].
  apply (C3_root_follows_head_yaw Scenario.quarterTurn 16); assumption.
Defined.

(** C4.  [extensionRatio] is [clamp((controllerPitchDeg - 11) / (50 - 11),
    0, 1)], with [controllerPitchDeg] the x angle, in degrees, of the YXZ
    Euler decomposition of [controllerQ]; for every pitch the ramp lies in
    [0, 1], is 0 up to 11 degrees, 1 from 50 degrees on, and linear in
    between. *)
Theorem C4_extensionRatio_ramp :
  (forall s now,
      controllerXDeg (locals s now) =
        Math2.radToDeg
          (Euler.x (Euler.setFromQuaternion (controllerQ s) Euler.YXZ)) /\
      extensionRatio (locals s now) =
        clamp_ ((controllerXDeg (locals s now) - 11) / (50 - 11)) 0 1) /\
  (forall pitch : R,
      let e := clamp_ ((pitch - 11) / (50 - 11)) 0 1 in
      0 <= e <= 1 /\
      (pitch <= 11 -> e = 0) /\
      (50 <= pitch -> e = 1) /\
      (11 <= pitch <= 50 -> e = (pitch - 11) / (50 - 11))).
Proof.
  split; [intros s now; split; reflexivity|].
  exact clamp__ramp.
Qed.

Lemma C4_witness :
  50 <= 60 /\ clamp_ ((60 - 11) / (50 - 11)) 0 1 = 1.
Proof.
  split; [lra|].
  apply (proj1 (proj2 (proj2 (proj2 C4_extensionRatio_ramp 60)))); lra.
Defined.

(** C5.  For a unit [controllerCameraQ] and a [lerpValue] in [0, 1], the
    value [wristQ] of the slerp of line 309 and [elbowQ =
    controllerCameraQ * inverse(wristQ)] of line 311 compose back:
    [elbowQ * wristQ = controllerCameraQ].  These are the two quaternions
    [update] computes, and its [controllerCameraQ] is a unit quaternion
    whenever [rootQ] and [controllerQ] are. *)
Theorem C5_elbow_times_wrist_is_controllerCameraQ :
  (forall (controllerCameraQ : Quaternion.t) (lerpValue : R),
      Quaternion.lengthSq controllerCameraQ = 1 ->
      0 <= lerpValue <= 1 ->
      let wristQ := Quaternion.slerp Quaternion.new controllerCameraQ lerpValue in
      let elbowQ := Quaternion.multiply (Quaternion.clone controllerCameraQ)
                                        (Quaternion.inverse wristQ) in
      Quaternion.multiply elbowQ wristQ = controllerCameraQ) /\
  (forall s now,
      let L := locals s now in
      invWristQ L =
        Quaternion.inverse
          (Quaternion.slerp Quaternion.new (controllerCameraQ L) (lerpValue L)) /\
      elbowQ L =
        Quaternion.multiply (Quaternion.clone (controllerCameraQ L))
                            (invWristQ L)) /\
  (forall s now,
      Quaternion.lengthSq (rootQ s) = 1 ->
      Quaternion.lengthSq (controllerQ s) = 1 ->
      let L := locals s now in
      Quaternion.multiply
        (elbowQ L)
        (Quaternion.slerp Quaternion.new (controllerCameraQ L) (lerpValue L))
      = controllerCameraQ L).
Proof.
  assert (compose : forall cam t,
             Quaternion.lengthSq cam = 1 ->
             Quaternion.multiply
               (Quaternion.multiply (Quaternion.clone cam)
                  (Quaternion.inverse (Quaternion.slerp Quaternion.new cam t)))
               (Quaternion.slerp Quaternion.new cam t) = cam).
  { intros cam t Hcam. rewrite Quaternion_clone_eq.
    apply multiply_inverse_cancel.
    apply Quaternion_lengthSq_slerp; [apply Quaternion_lengthSq_new|exact Hcam]. }
  split; [intros cam t Hcam _; apply compose, Hcam|].
  split; [intros s now; split; reflexivity|].
  intros s now Hr Hq. cbv zeta.
  apply (compose (controllerCameraQ (locals s now))).
  apply controllerCameraQ_unit; assumption.
Qed.

Lemma C5_witness :
  Quaternion.lengthSq Scenario.yawedQ = 1 /\
  0 <= 1 / 2 <= 1 /\
  Quaternion.multiply
    (Quaternion.multiply
       (Quaternion.clone Scenario.yawedQ)
       (Quaternion.inverse
          (Quaternion.slerp Quaternion.new Scenario.yawedQ (1 / 2))))
    (Quaternion.slerp Quaternion.new Scenario.yawedQ (1 / 2))
  = Scenario.yawedQ.
Proof.
  assert (H : Quaternion.lengthSq Scenario.yawedQ = 1).
  { unfold Quaternion.lengthSq, Scenario.yawedQ; cbn; lra. }
  split; [exact H|]. split; [lra|].
  apply (proj1 C5_elbow_times_wrist_is_controllerCameraQ Scenario.yawedQ (1 / 2));
    [exact H|lra].
Defined.

(** C6.  [lerpSuppression = 1 - (totalAngleDeg / 180)^4] is 1 at 0 degrees,
    does not increase on [0, 180], is 0 at 180 degrees and tends to 0 there
    (it is at most [(180 - d) / 45]). *)
Theorem C6_lerpSuppression_shape :
  (forall s now,
      lerpSuppression (locals s now) =
        1 - JS.Math_pow (totalAngleDeg (locals s now) / 180) 4) /\
  (let f := fun d : R => 1 - JS.Math_pow (d / 180) 4 in
   f 0 = 1 /\
   (forall a b, 0 <= a -> a <= b -> b <= 180 -> f b <= f a) /\
   f 180 = 0 /\
   (forall d, 0 <= d <= 180 -> 0 <= f d <= (180 - d) / 45) /\
   (forall eps, 0 < eps ->
      exists delta, 0 < delta /\
        forall d, 0 <= d <= 180 -> 180 - d < delta -> Rabs (f d - 0) < eps)).
Proof.
  split; [reflexivity|].
  cbv zeta. repeat split.
  - unfold JS.Math_pow. replace (0 / 180) with 0 by field. ring.
  - exact lerpSuppression_decreasing.
  - unfold JS.Math_pow. replace (180 / 180) with 1 by field. ring.
  - apply lerpSuppression_bound; assumption.
  - apply lerpSuppression_bound; assumption.
  - intros eps Heps. exists (45 * eps). split; [lra|].
    intros d Hd Hclose.
    destruct (lerpSuppression_bound d Hd) as [[lo hi] _].
    rewrite Rminus_0_r, Rabs_pos_eq by exact lo. lra.
Qed.

Lemma C6_witness :
  (0 <= 0 /\ 0 <= 90 /\ 90 <= 180) /\
  1 - JS.Math_pow (90 / 180) 4 <= 1 - JS.Math_pow (0 / 180) 4.
Proof.
  split; [lra|].
  apply (proj2 C6_lerpSuppression_shape); lra.
Defined.



(** C8.  [setControllerOrientation(q)] moves the current [controllerQ] into
    [lastControllerQ] and then stores [q] in [controllerQ]; the other setters
    and [update()] leave [lastControllerQ] alone, and [update()] writes none
    of [controllerQ], [lastControllerQ], [headQ], [headPos]. *)
Theorem C8_setter_history_and_update_frame :
  (forall s q,
      lastControllerQ (setControllerOrientation s q) = controllerQ s /\
      controllerQ (setControllerOrientation s q) = q) /\
  (forall s q, lastControllerQ (setHeadOrientation s q) = lastControllerQ s) /\
  (forall s p, lastControllerQ (setHeadPosition s p) = lastControllerQ s) /\
  (forall s now,
      controllerQ (update s now) = controllerQ s /\
      lastControllerQ (update s now) = lastControllerQ s /\
      headQ (update s now) = headQ s /\
      headPos (update s now) = headPos s).
Proof.
  repeat split; try reflexivity;
    unfold setControllerOrientation; cbn; apply Quaternion_copy_eq.
Qed.

(** C9.  For unit quaternions [quatAngle_] returns an angle in [0, PI],
    and [angleTo] divides by 1.  Hence in every [update()] on unit [rootQ],
    [lastControllerQ] and [controllerQ], both calls of [quatAngle_] divide
    by 1, [controllerCameraQ] is a unit quaternion, [totalAngleDeg] lies in
    [0, 180], [lerpSuppression] in [0, 1] and [lerpValue] in [0, 0.64], and
    the wrist slerp is taken at that [lerpValue]: an interpolation, never an
    extrapolation. *)
Theorem C9_lerpValue_range (s : State) (now : R) :
  Quaternion.lengthSq (rootQ s) = 1 ->
  Quaternion.lengthSq (lastControllerQ s) = 1 ->
  Quaternion.lengthSq (controllerQ s) = 1 ->
  let L := locals s now in
  (forall q1 q2,
      Quaternion.lengthSq q1 = 1 -> Quaternion.lengthSq q2 = 1 ->
      Divisions.quatAngle__divisor q1 q2 = 1 /\
      0 <= quatAngle_ q1 q2 <= PI) /\
  Divisions.quatAngle__divisor (lastControllerQ s) (controllerQ s) = 1 /\
  Quaternion.lengthSq (controllerCameraQ L) = 1 /\
  Divisions.quatAngle__divisor (controllerCameraQ L) Quaternion.new = 1 /\
  totalAngle L = quatAngle_ (controllerCameraQ L) Quaternion.new /\
  0 <= totalAngle L <= PI /\
  totalAngleDeg L = Math2.radToDeg (totalAngle L) /\
  0 <= totalAngleDeg L <= 180 /\
  0 <= lerpSuppression L <= 1 /\
  lerpValue L =
    lerpSuppression L *
    (ELBOW_BEND_RATIO +
     (1 - ELBOW_BEND_RATIO) * extensionRatio L * EXTENSION_RATIO_WEIGHT) /\
  0 <= lerpValue L <= 0.64 /\
  0 <= lerpValue L <= 1 /\
  invWristQ L =
    Quaternion.inverse
      (Quaternion.slerp Quaternion.new (controllerCameraQ L) (lerpValue L)).
Proof.
  intros Hr Hl Hq L.
  pose proof (lerpValue_range s now) as Hlv.
  pose proof (lerpSuppression_range s now) as Hls.
  pose proof (totalAngleDeg_range s now) as Hdeg.
  assert (Hcam : Quaternion.lengthSq (controllerCameraQ L) = 1)
    by (apply controllerCameraQ_unit; assumption).
  split.
  { intros q1 q2 H1 H2. split;
      [apply quatAngle__divisor_unit; assumption|apply quatAngle__range]. }
  split; [apply quatAngle__divisor_unit; assumption|].
  split; [exact Hcam|].
  split;
    [apply quatAngle__divisor_unit; [exact Hcam|apply Quaternion_lengthSq_new]|].
  split; [reflexivity|].
  split; [apply quatAngle__range|].
  repeat split; try reflexivity; try (unfold L; tauto); unfold L; lra.
Qed.

Lemma C9_witness :
  Quaternion.lengthSq (rootQ Scenario.yawed) = 1 /\
  Quaternion.lengthSq (lastControllerQ Scenario.yawed) = 1 /\
  Quaternion.lengthSq (controllerQ Scenario.yawed) = 1 /\
  0 <= lerpValue (locals Scenario.yawed 1000) <= 0.64.
Proof.
  assert (Hr : Quaternion.lengthSq (rootQ Scenario.yawed) = 1)
    by exact Quaternion_lengthSq_new.
  assert (Hl : Quaternion.lengthSq (lastControllerQ Scenario.yawed) = 1)
    by exact Quaternion_lengthSq_new.
  assert (Hq : Quaternion.lengthSq (controllerQ Scenario.yawed) = 1)
    by exact yawedQ_unit.
  split; [exact Hr|]. split; [exact Hl|]. split; [exact Hq|].
  apply (C9_lerpValue_range Scenario.yawed 1000 Hr Hl Hq).
Defined.
